(** * OpenFoodFacts-MCP: product resolution and sampling orchestration

    A shallow embedding of [src/tools/index.ts]: the resolver [findProduct]
    and the three sampling tool handlers ([analyzeProduct],
    [compareProducts], [suggestRecipes]), together with the part of the
    JavaScript run-time they rely on (truthiness, string conversion in
    template literals, optional chaining, [String.prototype.trim],
    [try]/[catch], [await] and [Promise.all]). *)

From Stdlib Require Import List ZArith NArith Bool String Ascii Lia.
From Stdlib Require QArith DecimalString.
Import ListNotations.

Set Implicit Arguments.

(** ** JavaScript strings

    A JavaScript string is a sequence of UTF-16 code units. *)

Definition jsstring : Type := list N.

(** Source literals are ASCII; [lit] turns a literal into code units. *)
Definition lit (s : string) : jsstring :=
  map N_of_ascii (list_ascii_of_string s).

Fixpoint str_eqb (a b : jsstring) : bool :=
  match a, b with
  | [], [] => true
  | x :: a', y :: b' => N.eqb x y && str_eqb a' b'
  | _, _ => false
  end.

(** [WhiteSpace] and [LineTerminator] of ECMAScript: what [trim] strips. *)
Definition is_white_space (c : N) : bool :=
  ((9 <=? c) && (c <=? 13) || (c =? 32) || (c =? 160) || (c =? 5760)
   || (8192 <=? c) && (c <=? 8202) || (c =? 8232) || (c =? 8233)
   || (c =? 8239) || (c =? 8287) || (c =? 12288) || (c =? 65279))%N.

Fixpoint trimStart (s : jsstring) : jsstring :=
  match s with
  | c :: r => if is_white_space c then trimStart r else s
  | [] => []
  end.

Definition trimEnd (s : jsstring) : jsstring := rev (trimStart (rev s)).

(** [String.prototype.trim]. *)
Definition trim (s : jsstring) : jsstring := trimEnd (trimStart s).

(** [\d] without the [u] flag: the ten ASCII digits. *)
Definition is_digit (c : N) : bool := ((48 <=? c) && (c <=? 57))%N.

(** [/^\d+$/.test(s)]: no [m] flag, so [^] and [$] are the two ends of the
    input; the string is one or more digits and nothing else. *)
Definition all_digits_test (s : jsstring) : bool :=
  match s with
  | [] => false
  | _ :: _ => forallb is_digit s
  end.

(** A canonical array index written as a property key (["0"], ["17"]). *)
Fixpoint parse_digits (acc : nat) (s : jsstring) : option nat :=
  match s with
  | [] => Some acc
  | c :: r =>
      if is_digit c then parse_digits (10 * acc + N.to_nat (c - 48)) r
      else None
  end.

Definition index_of_key (k : jsstring) : option nat :=
  match k with
  | [] => None
  | [c] => parse_digits 0 k
  | c :: _ => if (c =? 48)%N then None else parse_digits 0 k
  end.

(** [is_infix a b]: [a] occurs in [b] as a contiguous run of code units
    ([b.includes(a)]). *)
Fixpoint is_prefix (a b : jsstring) : bool :=
  match a, b with
  | [], _ => true
  | x :: a', y :: b' => N.eqb x y && is_prefix a' b'
  | _ :: _, [] => false
  end.

Fixpoint is_infix (a b : jsstring) : bool :=
  is_prefix a b ||
  match b with
  | [] => false
  | _ :: b' => is_infix a b'
  end.

(** The integers among the numbers, for the examples: [0] is falsy, and an
    integer prints in decimal. *)
Definition integer_truthy (z : Z) : bool := negb (z =? 0)%Z.

Definition integer_to_string (z : Z) : jsstring :=
  lit (DecimalString.NilZero.string_of_int (Z.to_int z)).

(** ** JavaScript values

    Products, result sets, sampling responses and thrown errors are all
    typed [any] in the source.  They are modelled as plain data: the
    primitives, arrays, objects with their own properties, and [Error]
    instances.  Numbers are IEEE doubles; the development is parametric in
    them and only needs their truthiness and their string conversion. *)

Section Tools.

Context {number : Type}.
Variable number_truthy : number -> bool.
Variable number_to_string : number -> jsstring.

#[warnings="-register-all"]
Inductive value : Type :=
| VUndefined
| VNull
| VBool (b : bool)
| VNum (n : number)
| VStr (s : jsstring)
| VArr (elems : list value)
| VObj (props : list (jsstring * value))
| VError (name message : jsstring).

(** [ToBoolean]: what [if (x)] and [!x] look at. *)
Definition truthy (v : value) : bool :=
  match v with
  | VUndefined | VNull => false
  | VBool b => b
  | VNum n => number_truthy n
  | VStr s => match s with [] => false | _ :: _ => true end
  | VArr _ | VObj _ | VError _ _ => true
  end.

Definition nullish (v : value) : bool :=
  match v with
  | VUndefined | VNull => true
  | _ => false
  end.

(** [ToString], as applied by a template literal [`${x}`]. *)
Fixpoint to_string (v : value) : jsstring :=
  match v with
  | VUndefined => lit "undefined"
  | VNull => lit "null"
  | VBool true => lit "true"
  | VBool false => lit "false"
  | VNum n => number_to_string n
  | VStr s => s
  | VArr elems =>
      (fix join (l : list value) : jsstring :=
         match l with
         | [] => []
         | x :: rest =>
             (if nullish x then [] else to_string x) ++
             match rest with
             | [] => []
             | _ :: _ => lit "," ++ join rest
             end
         end) elems
  | VObj _ => lit "[object Object]"
  | VError name message =>
      match name, message with
      | [], _ => message
      | _, [] => name
      | _, _ => name ++ lit ": " ++ message
      end
  end.

Fixpoint lookup (k : jsstring) (props : list (jsstring * value)) : value :=
  match props with
  | [] => VUndefined
  | (k', v) :: rest => if str_eqb k k' then v else lookup k rest
  end.

(** [v[k]] for a [v] that is neither [null] nor [undefined].  Only data
    properties are modelled: the own properties of an object, the elements
    of an array, the characters of a string, [name] and [message] of an
    error.  Anything else reads as [undefined]. *)
Definition get (v : value) (k : jsstring) : value :=
  match v with
  | VObj props => lookup k props
  | VArr elems =>
      match index_of_key k with
      | Some i => nth i elems VUndefined
      | None => VUndefined
      end
  | VStr s =>
      match index_of_key k with
      | Some i => match nth_error s i with
                  | Some c => VStr [c]
                  | None => VUndefined
                  end
      | None => VUndefined
      end
  | VError name message =>
      if str_eqb k (lit "message") then VStr message
      else if str_eqb k (lit "name") then VStr name
      else VUndefined
  | _ => VUndefined
  end.

(** Optional chaining [v?.k] (and [v?.[k]]). *)
Definition opt_get (v : value) (k : jsstring) : value :=
  if nullish v then VUndefined else get v k.

(** ** Effects: collaborator calls, logging, exceptions

    The collaborators are external ([product-search.js],
    [sampling-service.js]).  A call either fulfils with a value or rejects
    (throws) with one. *)

Inductive settled (A : Type) : Type :=
| Fulfilled (a : A)
| Rejected (e : value).
Arguments Rejected {A} e.

Definition outcome : Type := settled value.

(** A piece of a template literal of a request: literal text, or
    [JSON.stringify(v, null, indent)] ([None]: the call with one argument).
    The serialisation is a built-in of the run-time and is kept symbolic. *)
Inductive fragment : Type :=
| Text (s : jsstring)
| Json (v : value) (indent : option nat).

(** The literal request object built by the analyze and compare tools. *)
Record SamplingRequest : Type := mkSamplingRequest {
  message_role : jsstring;
  message_text : list fragment;
  systemPrompt : jsstring;
  hints : list jsstring;
  intelligencePriority : QArith_base.Q;
  includeContext : jsstring;
  temperature : QArith_base.Q;
  maxTokens : Z
}.

Inductive request : Type :=
| Literal (r : SamplingRequest)
| Built (v : value).

Inductive call : Type :=
| GetProductByBarcode (code : value)
| SearchProducts (query : value) (page pageSize : Z)
| RequestSampling (req : request)
| CreateRecipeSuggestionRequest (product : value)
| GetResponseText (res : value).

(** A program is the tree of its interactions: it returns, throws, calls a
    collaborator and goes on with the outcome, or writes to [logger.error]
    and goes on.  [C] is what can be called. *)
Inductive prog (C A : Type) : Type :=
| Ret (a : A)
| Throw (e : value)
| Call (c : C) (k : outcome -> prog C A)
| LoggerError (msg : jsstring) (k : prog C A).
Arguments Ret {C A} a.
Arguments Throw {C A} e.
Arguments Call {C A} c k.
Arguments LoggerError {C A} msg k.

Fixpoint bind {C A B} (p : prog C A) (f : A -> prog C B) : prog C B :=
  match p with
  | Ret a => f a
  | Throw e => Throw e
  | Call c k => Call c (fun o => bind (k o) f)
  | LoggerError msg k => LoggerError msg (bind k f)
  end.

(** [try { p } catch (e) { h e }]. *)
Fixpoint try_catch {C A} (p : prog C A) (h : value -> prog C A) : prog C A :=
  match p with
  | Ret a => Ret a
  | Throw e => h e
  | Call c k => Call c (fun o => try_catch (k o) h)
  | LoggerError msg k => LoggerError msg (try_catch k h)
  end.

(** [await c]: a rejection is rethrown at the [await]. *)
Definition await {C} (c : C) : prog C value :=
  Call c (fun o => match o with
                   | Fulfilled v => Ret v
                   | Rejected e => Throw e
                   end).

Local Notation "x <- p ;; q" := (bind p (fun x => q))
  (at level 100, p at next level, right associativity).

(** A block either falls through to the next statement or executes a
    [return]. *)
Inductive completion : Type :=
| Normal
| Return (v : value).

Definition and_then {C} (s : prog C completion) (rest : prog C value)
  : prog C value :=
  c <- s ;;
  match c with
  | Normal => rest
  | Return v => Ret v
  end.

(** Plain member access [v.k]: a [TypeError] on [null] and [undefined]. *)
Definition member {C} (v : value) (k : jsstring) : prog C value :=
  if nullish v then
    Throw (VError (lit "TypeError")
             (lit "Cannot read properties of " ++ to_string v ++
              lit " (reading '" ++ k ++ lit "')"))
  else Ret (get v k).

(** [a || b]. *)
Definition js_or (a b : value) : value := if truthy a then a else b.

Definition dquote : jsstring := [34%N].
Definition nl : jsstring := [10%N].

(** The object literal [{ product }]. *)
Definition bundle (product : value) : value :=
  VObj [(lit "product", product)].

(** ** The resolver *)

Definition findProduct (nameOrBarcode : jsstring) : prog call value :=
  if negb (truthy (VStr (trim nameOrBarcode))) then Ret VNull else
  let query := trim nameOrBarcode in
  let isBarcode := all_digits_test query in
  and_then
    (if isBarcode then
       try_catch
         (product <- await (GetProductByBarcode (VStr query)) ;;
          if truthy product then Ret (Return (bundle product))
          else Ret Normal)
         (fun error =>
            LoggerError (lit "Barcode lookup failed: " ++ to_string error)
              (Ret Normal))
     else Ret Normal)
  (and_then
    (try_catch
       (results <- await (SearchProducts (VStr query) 1 1) ;;
        let barcode :=
          opt_get (opt_get (opt_get results (lit "products")) (lit "0"))
            (lit "barcode") in
        if truthy barcode then
          product <- await (GetProductByBarcode barcode) ;;
          Ret (Return (bundle product))
        else Ret Normal)
       (fun error =>
          LoggerError (lit "Search failed: " ++ to_string error)
            (Ret Normal)))
  (Ret VNull)).

(** ** The tool handlers *)

(** What a handler returns: [content] is always one text item; [isError]
    is [None] where the object literal has no such property. *)
Record response : Type := mkResponse {
  text : jsstring;
  isError : option bool
}.

(** What a handler waits on: one collaborator call, or [Promise.all] of two
    asynchronous computations. *)
Inductive action : Type :=
| Do (c : call)
| All2 (p1 p2 : prog call value).

(** An [async] function awaited in place by a handler. *)
Fixpoint lift {A} (p : prog call A) : prog action A :=
  match p with
  | Ret a => Ret a
  | Throw e => Throw e
  | Call c k => Call (Do c) (fun o => lift (k o))
  | LoggerError msg k => LoggerError msg (lift k)
  end.

Definition analysis_request (p : value) : SamplingRequest :=
  {| message_role := lit "user";
     message_text := [Text (lit "Analyze:" ++ nl ++ nl); Json p (Some 2)];
     systemPrompt :=
       lit "Nutritional expert. Provide: 1) Overview 2) Nutrition 3) Ingredients 4) Allergens 5) Health 6) Recommendations";
     hints := [lit "claude-3"];
     intelligencePriority := QArith_base.Qmake 9 10;
     includeContext := lit "thisServer";
     temperature := QArith_base.Qmake 3 10;
     maxTokens := 1500 |}.

Definition comparison_request (p1 p2 : value) : SamplingRequest :=
  {| message_role := lit "user";
     message_text :=
       [Text (lit "Compare:" ++ nl ++ nl ++ lit "1:" ++ nl); Json p1 None;
        Text (nl ++ nl ++ lit "2:" ++ nl); Json p2 None];
     systemPrompt :=
       lit "Compare: 1) Overview 2) Nutrition 3) Ingredients 4) Health 5) Recommendation";
     hints := [lit "claude-3"];
     intelligencePriority := QArith_base.Qmake 9 10;
     includeContext := lit "thisServer";
     temperature := QArith_base.Qmake 2 10;
     maxTokens := 2000 |}.

Definition blank (s : jsstring) : bool := negb (truthy (VStr (trim s))).

(** [!d?.product]. *)
Definition no_product (d : value) : bool :=
  negb (truthy (opt_get d (lit "product"))).

Definition analyzeProduct (nameOrBarcode : jsstring) : prog action response :=
  if blank nameOrBarcode then
    Ret (mkResponse (lit "Provide a product name or barcode.") (Some true))
  else
  productData <- lift (findProduct nameOrBarcode) ;;
  if no_product productData then
    Ret (mkResponse
           (dquote ++ nameOrBarcode ++ dquote ++
            lit " not found. Try searchProducts first.") (Some true))
  else
  p <- member productData (lit "product") ;;
  try_catch
    (res <- await (Do (RequestSampling (Literal (analysis_request p)))) ;;
     product_name <- member p (lit "product_name") ;;
     brands <- member p (lit "brands") ;;
     let header :=
       lit "# " ++ to_string (js_or product_name (VStr (lit "Product"))) ++
       lit " (" ++ to_string (js_or brands (VStr (lit "Unknown"))) ++
       lit ")" ++ nl in
     responseText <- await (Do (GetResponseText res)) ;;
     Ret (mkResponse (header ++ to_string responseText) None))
    (fun _ =>
       product_name <- member p (lit "product_name") ;;
       brands <- member p (lit "brands") ;;
       nutriscore_grade <- member p (lit "nutriscore_grade") ;;
       ingredients_text <- member p (lit "ingredients_text") ;;
       Ret (mkResponse
              (lit "# " ++ to_string product_name ++ nl ++
               lit "Brand: " ++ to_string brands ++ nl ++
               lit "Nutri-Score: " ++ to_string nutriscore_grade ++ nl ++
               lit "Ingredients: " ++ to_string ingredients_text) None)).

Definition compareProducts (nameOrBarcode1 nameOrBarcode2 : jsstring)
  : prog action response :=
  if blank nameOrBarcode1 || blank nameOrBarcode2 then
    Ret (mkResponse (lit "Provide both products.") (Some true))
  else
  ds <- await (All2 (findProduct nameOrBarcode1) (findProduct nameOrBarcode2)) ;;
  let d1 := get ds (lit "0") in
  let d2 := get ds (lit "1") in
  if no_product d1 then
    Ret (mkResponse (dquote ++ nameOrBarcode1 ++ dquote ++ lit " not found.")
           (Some true))
  else if no_product d2 then
    Ret (mkResponse (dquote ++ nameOrBarcode2 ++ dquote ++ lit " not found.")
           (Some true))
  else
  try_catch
    (p1 <- member d1 (lit "product") ;;
     p2 <- member d2 (lit "product") ;;
     res <- await (Do (RequestSampling (Literal (comparison_request p1 p2)))) ;;
     p1 <- member d1 (lit "product") ;;
     name1 <- member p1 (lit "product_name") ;;
     p2 <- member d2 (lit "product") ;;
     name2 <- member p2 (lit "product_name") ;;
     responseText <- await (Do (GetResponseText res)) ;;
     Ret (mkResponse
            (lit "# " ++ to_string name1 ++ lit " vs " ++ to_string name2 ++
             nl ++ nl ++ to_string responseText) None))
    (fun _ =>
       p1 <- member d1 (lit "product") ;;
       name1 <- member p1 (lit "product_name") ;;
       p2 <- member d2 (lit "product") ;;
       name2 <- member p2 (lit "product_name") ;;
       p1 <- member d1 (lit "product") ;;
       grade1 <- member p1 (lit "nutriscore_grade") ;;
       p2 <- member d2 (lit "product") ;;
       grade2 <- member p2 (lit "nutriscore_grade") ;;
       Ret (mkResponse
              (lit "# " ++ to_string name1 ++ lit " vs " ++ to_string name2 ++
               nl ++ lit "Nutri-Score: " ++ to_string grade1 ++ lit " vs " ++
               to_string grade2) None)).

Definition suggestRecipes (nameOrBarcode : jsstring) : prog action response :=
  if blank nameOrBarcode then
    Ret (mkResponse (lit "Provide a product.") (Some true))
  else
  productData <- lift (findProduct nameOrBarcode) ;;
  if no_product productData then
    Ret (mkResponse (dquote ++ nameOrBarcode ++ dquote ++ lit " not found.")
           (Some true))
  else
  try_catch
    (p <- member productData (lit "product") ;;
     req <- await (Do (CreateRecipeSuggestionRequest p)) ;;
     res <- await (Do (RequestSampling (Built req))) ;;
     p <- member productData (lit "product") ;;
     product_name <- member p (lit "product_name") ;;
     responseText <- await (Do (GetResponseText res)) ;;
     Ret (mkResponse
            (lit "# Recipes using " ++ to_string product_name ++ nl ++ nl ++
             to_string responseText) None))
    (fun e =>
       message <- member e (lit "message") ;;
       Ret (mkResponse (lit "Recipe generation failed: " ++ to_string message)
              (Some true))).

(** ** Execution

    What happens is a trace of events: a thread invokes a collaborator, a
    thread resumes from its [await] with the outcome of its pending call, a
    thread writes to the log.  Thread 0 is the handler (or the function run
    on its own); threads 1 and 2 are the two members of a [Promise.all].
    Calls that never settle are not modelled. *)

Inductive event : Type :=
| Invoked (t : nat) (c : call)
| Settled (t : nat) (c : call) (o : outcome)
| Logged (t : nat) (msg : jsstring).

(** The world outside: how a pending call settles, given all that has
    happened so far, and which of two pending calls settles first. *)
Record world : Type := mkWorld {
  respond : list event -> call -> outcome;
  left_first : list event -> bool
}.

(** One asynchronous function running on its own as thread [t]. *)
Fixpoint run {A} (w : world) (t : nat) (hist : list event) (p : prog call A)
  : list event * settled A :=
  match p with
  | Ret a => (hist, Fulfilled a)
  | Throw e => (hist, Rejected e)
  | Call c k =>
      let o := respond w (hist ++ [Invoked t c]) c in
      run w t (hist ++ [Invoked t c; Settled t c o]) (k o)
  | LoggerError msg k => run w t (hist ++ [Logged t msg]) k
  end.

(** Where a member of [Promise.all] stands: called but not started yet,
    suspended at an [await], or fulfilled. *)
Inductive thread_state : Type :=
| Fresh (p : prog call value)
| Pending (c : call) (k : outcome -> prog call value)
| Finished (v : value).

(** The synchronous part of a thread: up to its first [await] or its end. *)
Fixpoint advance (t : nat) (hist : list event) (p : prog call value)
  : list event * (thread_state + value) :=
  match p with
  | Ret v => (hist, inl (Finished v))
  | Throw e => (hist, inr e)
  | Call c k => (hist ++ [Invoked t c], inl (Pending c k))
  | LoggerError msg k => advance t (hist ++ [Logged t msg]) k
  end.

(** How [Promise.all] of two settles: the trace so far, the outcome, and a
    member that is still suspended when the outcome is a rejection
    ([Promise.all] rejects at the first rejection and cancels nothing). *)
Record joined : Type := mkJoined {
  j_trace : list event;
  j_outcome : outcome;
  j_detached : option thread_state
}.

(** Thread 2 goes on alone after thread 1 fulfilled with [v1]. *)
Definition finish2 (w : world) (hist : list event) (v1 : value)
  (p2 : prog call value) : joined :=
  let '(h, r) := run w 2 hist p2 in
  match r with
  | Fulfilled v2 => mkJoined h (Fulfilled (VArr [v1; v2])) None
  | Rejected e => mkJoined h (Rejected e) None
  end.

(** Thread 2 executes [p2] while thread 1 is suspended at its call [c1];
    [settle1 h s] is how things go on once [c1] settles, thread 2 standing
    at [s].  A thread runs without interruption from one [await] to the
    next; the world picks which pending call settles first. *)
Fixpoint all2_right (w : world) (c1 : call) (k1 : outcome -> prog call value)
  (settle1 : list event -> thread_state -> joined)
  (p2 : prog call value) (h : list event) {struct p2} : joined :=
  match p2 with
  | LoggerError msg k => all2_right w c1 k1 settle1 k (h ++ [Logged 2 msg])
  | Ret v2 => settle1 h (Finished v2)
  | Throw e2 => mkJoined h (Rejected e2) (Some (Pending c1 k1))
  | Call c2 k2 =>
      let h' := h ++ [Invoked 2 c2] in
      if left_first w h' then settle1 h' (Pending c2 k2)
      else
        let o2 := respond w h' c2 in
        all2_right w c1 k1 settle1 (k2 o2) (h' ++ [Settled 2 c2 o2])
  end.

(** [all2 w p1 hist s2]: thread 1 is about to execute [p1]; [s2] is where
    thread 2 stands. *)
Fixpoint all2 (w : world) (p1 : prog call value) (hist : list event)
  (s2 : thread_state) {struct p1} : joined :=
  match p1 with
  | LoggerError msg k => all2 w k (hist ++ [Logged 1 msg]) s2
  | Ret v1 =>
      match s2 with
      | Fresh p2 => finish2 w hist v1 p2
      | Pending c2 k2 =>
          let o2 := respond w hist c2 in
          finish2 w (hist ++ [Settled 2 c2 o2]) v1 (k2 o2)
      | Finished v2 => mkJoined hist (Fulfilled (VArr [v1; v2])) None
      end
  | Throw e1 =>
      match s2 with
      | Fresh p2 =>
          let '(h, s) := advance 2 hist p2 in
          mkJoined h (Rejected e1)
            match s with
            | inl (Pending c2 k2) => Some (Pending c2 k2)
            | _ => None
            end
      | Pending c2 k2 => mkJoined hist (Rejected e1) (Some (Pending c2 k2))
      | Finished _ => mkJoined hist (Rejected e1) None
      end
  | Call c1 k1 =>
      let settle1 (h : list event) (s : thread_state) : joined :=
        let o1 := respond w h c1 in
        all2 w (k1 o1) (h ++ [Settled 1 c1 o1]) s in
      let h1 := hist ++ [Invoked 1 c1] in
      match s2 with
      | Fresh p2 => all2_right w c1 k1 settle1 p2 h1
      | Pending c2 k2 =>
          if left_first w h1 then settle1 h1 (Pending c2 k2)
          else
            let o2 := respond w h1 c2 in
            all2_right w c1 k1 settle1 (k2 o2) (h1 ++ [Settled 2 c2 o2])
      | Finished v2 => settle1 h1 (Finished v2)
      end
  end.

(** [Promise.all([p1, p2])]: [p1] is called first, then [p2]. *)
Definition promise_all2 (w : world) (hist : list event)
  (p1 p2 : prog call value) : joined :=
  all2 w p1 hist (Fresh p2).

(** A handler's execution: its trace, how it settles, and the threads it
    left suspended behind it. *)
Record execution (A : Type) : Type := mkExecution {
  trace : list event;
  result : settled A;
  detached : list thread_state
}.

Fixpoint exec_from {A} (w : world) (hist : list event)
  (left : list thread_state) (p : prog action A) : execution A :=
  match p with
  | Ret a => mkExecution hist (Fulfilled a) left
  | Throw e => mkExecution hist (Rejected e) left
  | LoggerError msg k => exec_from w (hist ++ [Logged 0 msg]) left k
  | Call (Do c) k =>
      let o := respond w (hist ++ [Invoked 0 c]) c in
      exec_from w (hist ++ [Invoked 0 c; Settled 0 c o]) left (k o)
  | Call (All2 p1 p2) k =>
      let j := promise_all2 w hist p1 p2 in
      exec_from w (j_trace j)
        (left ++ match j_detached j with Some s => [s] | None => [] end)
        (k (j_outcome j))
  end.

Definition exec {A} (w : world) (p : prog action A) : execution A :=
  exec_from w [] [] p.

(** ** Observing a run of the resolver *)

(** [results?.products?.[0]?.barcode]. *)
Definition first_barcode (results : value) : value :=
  opt_get (opt_get (opt_get results (lit "products")) (lit "0"))
    (lit "barcode").

(** The outcome of the first search call of a trace, and what follows it. *)
Fixpoint search_settled (tr : list event) : option (outcome * list event) :=
  match tr with
  | [] => None
  | Settled _ (SearchProducts _ _ _) o :: rest => Some (o, rest)
  | _ :: rest => search_settled rest
  end.

(** Every rejection in the trace is followed at once by a log entry that
    ends with the error's text, and then either by a search call (the next
    step of the strategy) or by nothing, the result being [null]. *)
Fixpoint degrades (r : settled value) (tr : list event) : Prop :=
  match tr with
  | [] => True
  | Settled t c (Rejected e) :: rest =>
      (exists prefix rest',
          rest = Logged t (prefix ++ to_string e) :: rest' /\
          match rest' with
          | [] => r = Fulfilled VNull
          | ev :: _ => exists q, ev = Invoked t (SearchProducts q 1 1)
          end) /\
      degrades r rest
  | _ :: rest => degrades r rest
  end.

(** The invariant of the data model as the specification words it: a
    bundle that is not absent holds a truthy product. *)
Definition bundle_invariant : Prop :=
  forall (w : world) (id : jsstring) (b : value),
    snd (run w 0 [] (findProduct id)) = Fulfilled b ->
    b <> VNull ->
    truthy (get b (lit "product")) = true.

(** Step 4 of the resolver as the specification words it: a search that
    succeeds with at least one result is followed by a second lookup of the
    first result's barcode, and the resolver returns a bundle. *)
Definition search_hit_always_fetches : Prop :=
  forall (w : world) (id : jsstring) (results first : value)
         (more : list value) (rest : list event),
    search_settled (fst (run w 0 [] (findProduct id)))
      = Some (Fulfilled results, rest) ->
    opt_get results (lit "products") = VArr (first :: more) ->
    exists o p,
      In (Settled 0 (GetProductByBarcode (opt_get first (lit "barcode"))) o)
        rest /\
      snd (run w 0 [] (findProduct id)) = Fulfilled (bundle p).

(** ** Observing a [Promise.all] *)

Definition thread_of (ev : event) : nat :=
  match ev with
  | Invoked t _ | Settled t _ _ | Logged t _ => t
  end.

(** What thread [t] did, in order. *)
Definition view (t : nat) (tr : list event) : list event :=
  filter (fun ev => Nat.eqb (thread_of ev) t) tr.

(** The calls of the product lookup client. *)
Definition lookup_call (c : call) : bool :=
  match c with
  | GetProductByBarcode _ | SearchProducts _ _ _ => true
  | _ => false
  end.

Definition lookup_event (ev : event) : bool :=
  match ev with
  | Invoked _ c | Settled _ c _ => lookup_call c
  | Logged _ _ => true
  end.

Definition sampling_event (ev : event) : bool :=
  match ev with
  | Invoked _ (RequestSampling _) | Settled _ (RequestSampling _) _ => true
  | _ => false
  end.

(** [path t p evs v]: [evs] is one whole execution of [p] by thread [t],
    from its first step to its [return v]. *)
Inductive path (t : nat) : prog call value -> list event -> value -> Prop :=
| path_ret v : path t (Ret v) [] v
| path_call c k o evs v :
    path t (k o) evs v ->
    path t (Call c k) (Invoked t c :: Settled t c o :: evs) v
| path_log msg k evs v :
    path t k evs v -> path t (LoggerError msg k) (Logged t msg :: evs) v.

(** The same for a thread that stands at [s]. *)
Definition state_path (t : nat) (s : thread_state) (evs : list event)
  (v : value) : Prop :=
  match s with
  | Fresh p => path t p evs v
  | Pending c k =>
      exists o evs', evs = Settled t c o :: evs' /\ path t (k o) evs' v
  | Finished v' => evs = [] /\ v = v'
  end.

(** A program that cannot throw and only calls the lookup client. *)
Inductive total : prog call value -> Prop :=
| total_ret v : total (Ret v)
| total_call c k :
    lookup_call c = true -> (forall o, total (k o)) -> total (Call c k)
| total_log msg k : total k -> total (LoggerError msg k).

Definition total_state (s : thread_state) : Prop :=
  match s with
  | Fresh p => total p
  | Pending c k => lookup_call c = true /\ forall o, total (k o)
  | Finished _ => True
  end.

(** [joins s1 s2 h j]: from the trace [h], with the two threads standing at
    [s1] and [s2], the join [j] fulfils with both results, leaves no thread
    behind, and each thread ran to its end. *)
Definition joins (s1 s2 : thread_state) (h : list event) (j : joined)
  : Prop :=
  exists ext v1 v2,
    j_trace j = h ++ ext /\
    j_outcome j = Fulfilled (VArr [v1; v2]) /\
    j_detached j = None /\
    state_path 1 s1 (view 1 ext) v1 /\
    state_path 2 s2 (view 2 ext) v2 /\
    Forall (fun ev => (thread_of ev = 1 \/ thread_of ev = 2) /\
                      lookup_event ev = true) ext.

(** The fallback of analyze and compare as the specification words it: the
    gateway failing after a successful resolution, the response has no
    [isError] and its text carries the name, the brand, the nutrition grade
    and the ingredients text of every resolved product. *)
Definition fallback_fields : list jsstring :=
  [lit "product_name"; lit "brands"; lit "nutriscore_grade";
   lit "ingredients_text"].

Definition cites (p : value) (t : jsstring) : bool :=
  forallb (fun field => is_infix (to_string (get p field)) t) fallback_fields.

Definition fallback_cites_four_fields : Prop :=
  (forall (w : world) (id : jsstring) (h : list event) (d e : value),
     blank id = false ->
     run w 0 [] (findProduct id) = (h, Fulfilled d) ->
     no_product d = false ->
     let p := get d (lit "product") in
     let sampling := RequestSampling (Literal (analysis_request p)) in
     respond w (h ++ [Invoked 0 sampling]) sampling = Rejected e ->
     exists r,
       result (exec w (analyzeProduct id)) = Fulfilled r /\
       isError r = None /\ cites p (text r) = true) /\
  (forall (w : world) (a b : jsstring) (d1 d2 e : value),
     blank a = false ->
     blank b = false ->
     let j := promise_all2 w [] (findProduct a) (findProduct b) in
     j_outcome j = Fulfilled (VArr [d1; d2]) ->
     no_product d1 = false ->
     no_product d2 = false ->
     let p1 := get d1 (lit "product") in
     let p2 := get d2 (lit "product") in
     let sampling := RequestSampling (Literal (comparison_request p1 p2)) in
     respond w (j_trace j ++ [Invoked 0 sampling]) sampling = Rejected e ->
     exists r,
       result (exec w (compareProducts a b)) = Fulfilled r /\
       isError r = None /\
       cites p1 (text r) = true /\ cites p2 (text r) = true).

(** ** Example data *)

Definition text_field (k v : string) : jsstring * value :=
  (lit k, VStr (lit v)).

Definition nutella : value :=
  VObj [text_field "barcode" "3017620422003";
        text_field "product_name" "Nutella";
        text_field "brands" "Ferrero";
        text_field "nutriscore_grade" "e";
        text_field "ingredients_text" "Sugar, palm oil, hazelnuts"].

Definition biscoff : value :=
  VObj [text_field "barcode" "5410126006957";
        text_field "product_name" "Lotus Biscoff";
        text_field "brands" "Lotus";
        text_field "nutriscore_grade" "d";
        text_field "ingredients_text" "Wheat flour, sugar"].

(** A result set. *)
Definition summaries (l : list value) : value :=
  VObj [(lit "products", VArr l)].

Definition is_text (v : value) (s : string) : bool :=
  match v with
  | VStr t => str_eqb t (lit s)
  | _ => false
  end.

(** A database that knows two products, with a client that has no sampling
    capability. *)
Definition shop_respond (c : call) : outcome :=
  match c with
  | GetProductByBarcode code =>
      if is_text code "3017620422003" then Fulfilled nutella
      else if is_text code "5410126006957" then Fulfilled biscoff
      else Fulfilled VNull
  | SearchProducts q _ _ =>
      if is_text q "nutella" then
        Fulfilled (summaries [VObj [text_field "barcode" "3017620422003"]])
      else if is_text q "biscoff" then
        Fulfilled (summaries [VObj [text_field "barcode" "5410126006957"]])
      else Fulfilled (summaries [])
  | RequestSampling _ =>
      Rejected (VError (lit "Error") (lit "Sampling not supported"))
  | CreateRecipeSuggestionRequest _ => Fulfilled (VObj [])
  | GetResponseText _ => Fulfilled (VStr [])
  end.

Definition shop : world := mkWorld (fun _ c => shop_respond c) (fun _ => true).

(** A search index that lists a barcode the database no longer has. *)
Definition stale_index : world :=
  mkWorld
    (fun _ c =>
       match c with
       | SearchProducts _ _ _ =>
           Fulfilled (summaries [VObj [text_field "barcode" "4000000000001"]])
       | GetProductByBarcode _ => Fulfilled VNull
       | _ => Rejected VUndefined
       end)
    (fun _ => true).

(** A search index whose entries carry no barcode. *)
Definition unlabelled_index : world :=
  mkWorld
    (fun _ c =>
       match c with
       | SearchProducts _ _ _ =>
           Fulfilled (summaries [VObj [text_field "product_name" "Nutella"]])
       | GetProductByBarcode _ => Fulfilled VNull
       | _ => Rejected VUndefined
       end)
    (fun _ => true).

(** ** Counting calls *)

Definition is_invocation (ev : event) : bool :=
  match ev with
  | Invoked _ _ => true
  | _ => false
  end.

(** The calls made in a trace, in order. *)
Definition invocations (tr : list event) : list event :=
  filter is_invocation tr.

Definition is_search_invocation (ev : event) : bool :=
  match ev with
  | Invoked _ (SearchProducts _ _ _) => true
  | _ => false
  end.

Definition searches (tr : list event) : list event :=
  filter is_search_invocation tr.

Definition is_sampling_invocation (ev : event) : bool :=
  match ev with
  | Invoked _ (RequestSampling _) => true
  | _ => false
  end.

Definition sampling_invocations (tr : list event) : list event :=
  filter is_sampling_invocation tr.

(** The example database behind a client whose sampling side behaves as
    given: how the gateway settles, how the recipe request builder settles,
    and how the text of a response is extracted. *)
Definition shop_with (sampling build : outcome) (extract : value -> outcome)
  : world :=
  mkWorld
    (fun _ c =>
       match c with
       | RequestSampling _ => sampling
       | CreateRecipeSuggestionRequest _ => build
       | GetResponseText res => extract res
       | _ => shop_respond c
       end)
    (fun _ => false).

(** A response of the gateway, and the text in it. *)
Definition reply (t : string) : value :=
  VObj [(lit "content", VObj [text_field "type" "text"; text_field "text" t])].

Definition reply_text (res : value) : outcome :=
  Fulfilled (opt_get (opt_get res (lit "content")) (lit "text")).

(** A database whose records carry a barcode and nothing else, behind a
    client that has no sampling capability. *)
Definition bare_records : world :=
  mkWorld
    (fun _ c =>
       match c with
       | GetProductByBarcode code => Fulfilled (VObj [(lit "barcode", code)])
       | SearchProducts _ _ _ => Fulfilled (summaries [])
       | _ => Rejected (VError (lit "Error") (lit "Sampling not supported"))
       end)
    (fun _ => true).

(** ** Collaborators that answer by the call alone

    [answer f p]: what [p] comes to when every call [c] settles as [f c],
    whatever happened before. *)
Fixpoint answer {A} (f : call -> outcome) (p : prog call A) : settled A :=
  match p with
  | Ret a => Fulfilled a
  | Throw e => Rejected e
  | Call c k => answer f (k (f c))
  | LoggerError _ k => answer f k
  end.

Definition answer_state (f : call -> outcome) (s : thread_state)
  : settled value :=
  match s with
  | Fresh p => answer f p
  | Pending c k => answer f (k (f c))
  | Finished v => Fulfilled v
  end.

(** ** Facts about [trim] and the barcode test *)

Lemma trimStart_nil (s : jsstring) :
  trimStart s = [] <-> forallb is_white_space s = true.
Proof.
  induction s as [|c r IH]; simpl.
  - tauto.
  - destruct (is_white_space c); simpl; [exact IH|].
    split; discriminate.
Qed.

Lemma trimStart_idem (s : jsstring) : trimStart (trimStart s) = trimStart s.
Proof.
  induction s as [|c r IH]; simpl; [reflexivity|].
  destruct (is_white_space c) eqn:E; [exact IH|].
  simpl. now rewrite E.
Qed.

Lemma forallb_rev {A} (f : A -> bool) (l : list A) :
  forallb f (rev l) = forallb f l.
Proof.
  induction l as [|x l IH]; simpl; [reflexivity|].
  rewrite forallb_app, IH. simpl. rewrite andb_true_r. apply andb_comm.
Qed.

Lemma trim_nil (s : jsstring) :
  trim s = [] <-> forallb is_white_space s = true.
Proof.
  unfold trim, trimEnd. split; intros H.
  - apply trimStart_nil.
    assert (H1 : trimStart (rev (trimStart s)) = []).
    { rewrite <- (rev_involutive (trimStart (rev (trimStart s)))).
      now rewrite H. }
    apply trimStart_nil in H1. rewrite forallb_rev in H1.
    apply trimStart_nil in H1. now rewrite trimStart_idem in H1.
  - apply trimStart_nil in H. now rewrite H.
Qed.

Lemma blank_spec (s : jsstring) :
  blank s = true <-> forallb is_white_space s = true.
Proof.
  rewrite <- trim_nil. unfold blank. simpl.
  destruct (trim s); simpl; split; congruence.
Qed.

Lemma all_digits_not_blank (s : jsstring) :
  all_digits_test (trim s) = true -> blank s = false.
Proof.
  unfold blank. simpl. now destruct (trim s).
Qed.

(** ** The resolver: properties *)

Lemma get_pair (x y : value) :
  get (VArr [x; y]) (lit "0") = x /\ get (VArr [x; y]) (lit "1") = y.
Proof. split; reflexivity. Qed.

Opaque lit.

Lemma findProduct_blank (id : jsstring) :
  blank id = true -> findProduct id = Ret VNull.
Proof. intros H. unfold findProduct. fold (blank id). now rewrite H. Qed.

Lemma not_all_digits (s : jsstring) :
  forallb is_digit s = false -> all_digits_test s = false.
Proof. unfold all_digits_test. now destruct s. Qed.

(** Case analysis on how the pending calls settle and on the truthiness
    tests the resolver makes. *)
Ltac settle :=
  repeat (simpl;
    match goal with
    | |- context [respond ?w ?h ?c] =>
        let o := fresh "o" in
        let E := fresh "Eo" in
        destruct (respond w h c) as [o|o] eqn:E
    | |- context [truthy ?v] =>
        let E := fresh "Et" in
        destruct (truthy v) eqn:E
    end); simpl.

Ltac enter_findProduct id Hb :=
  unfold findProduct; fold (blank id); rewrite Hb; cbv zeta.

(** C6. An identifier that is empty or made of white space only resolves to
    [null] at once: the trace is empty, no collaborator is called. *)
Theorem findProduct_blank_absent (w : world) (id : jsstring) :
  forallb is_white_space id = true ->
  run w 0 [] (findProduct id) = ([], Fulfilled VNull).
Proof.
  intros H. apply blank_spec in H.
  now rewrite (findProduct_blank _ H).
Qed.


(** C5. For an identifier that is not blank and has a character that is
    not a digit, the run starts with the search (the trimmed identifier,
    page 1, page size 1) and never with a direct lookup; the only other
    call is the lookup of the first result's barcode, made when that
    barcode is truthy. *)
Theorem findProduct_search_only (w : world) (id : jsstring) :
  blank id = false ->
  forallb is_digit (trim id) = false ->
  let search := SearchProducts (VStr (trim id)) 1 1 in
  let o := respond w [Invoked 0 search] search in
  fst (run w 0 [] (findProduct id)) =
    Invoked 0 search :: Settled 0 search o ::
    match o with
    | Rejected e => [Logged 0 (lit "Search failed: " ++ to_string e)]
    | Fulfilled results =>
        let fetch := GetProductByBarcode (first_barcode results) in
        if truthy (first_barcode results) then
          let o2 :=
            respond w [Invoked 0 search; Settled 0 search o; Invoked 0 fetch]
              fetch in
          Invoked 0 fetch :: Settled 0 fetch o2 ::
          match o2 with
          | Rejected e => [Logged 0 (lit "Search failed: " ++ to_string e)]
          | Fulfilled _ => []
          end
        else []
    end.
Proof.
  intros Hb Hd search o. enter_findProduct id Hb.
  rewrite (not_all_digits _ Hd). simpl. fold search. fold o.
  destruct o as [results|e]; simpl; [|reflexivity].
  fold (first_barcode results).
  destruct (truthy (first_barcode results)); simpl; [|reflexivity].
  match goal with
  | |- context [respond ?w ?h ?c] => destruct (respond w h c)
  end; reflexivity.
Qed.


(** X4.  What a bundle holds.  A bundle that is not absent is
    [{ product: p }] with [p] the value the last lookup fulfilled with.
    On the direct path (one lookup, no search) [p] is truthy: line 27 tests
    it.  On the search path line 38 wraps what the second lookup gave
    without a test. *)
Lemma findProduct_bundle_product (w : world) (id : jsstring)
  (tr : list event) (b : value) :
  run w 0 [] (findProduct id) = (tr, Fulfilled b) ->
  b <> VNull ->
  exists p,
    b = bundle p /\
    ((tr = [Invoked 0 (GetProductByBarcode (VStr (trim id)));
            Settled 0 (GetProductByBarcode (VStr (trim id))) (Fulfilled p)] /\
      truthy p = true) \/
     (exists results,
        let fetch := GetProductByBarcode (first_barcode results) in
        search_settled tr =
          Some (Fulfilled results,
                [Invoked 0 fetch; Settled 0 fetch (Fulfilled p)]))).
Proof.
  destruct (blank id) eqn:Hb.
  - rewrite (findProduct_blank _ Hb). simpl. intros H. inversion H. congruence.
  - enter_findProduct id Hb.
    destruct (all_digits_test (trim id)); settle;
      intros H Hn; inversion H; subst; try congruence;
      eexists; (split; [reflexivity|]);
      first [ left; split; [reflexivity|assumption]
            | right; eexists; reflexivity ].
Qed.


(** ** [Promise.all] of two programs that cannot throw *)

Lemma run_total (w : world) (t : nat) (p : prog call value) :
  total p ->
  forall hist, exists ext v,
    run w t hist p = (hist ++ ext, Fulfilled v) /\ path t p ext v /\
    Forall (fun ev => thread_of ev = t /\ lookup_event ev = true) ext.
Proof.
  induction 1 as [v|c k Hc _ IH|msg k _ IH]; intros hist; simpl.
  - exists [], v. rewrite app_nil_r. repeat split; constructor.
  - destruct (IH (respond w (hist ++ [Invoked t c]) c)
                (hist ++ [Invoked t c;
                          Settled t c (respond w (hist ++ [Invoked t c]) c)]))
      as (ext & v & -> & Hp & Hf).
    eexists (_ :: _ :: ext), v. rewrite <- app_assoc. simpl.
    repeat split; [now constructor|]. repeat constructor; auto.
  - destruct (IH (hist ++ [Logged t msg])) as (ext & v & -> & Hp & Hf).
    exists (Logged t msg :: ext), v. rewrite <- app_assoc. simpl.
    repeat split; [now constructor|]. now repeat constructor.
Qed.

Lemma view_other (t u : nat) (ext : list event) :
  t <> u ->
  Forall (fun ev => thread_of ev = t /\ lookup_event ev = true) ext ->
  view u ext = [].
Proof.
  intros Hn. induction 1 as [|ev l [He _] _ IH]; simpl; [reflexivity|].
  rewrite He. destruct (Nat.eqb_spec t u); [contradiction|exact IH].
Qed.

Lemma view_same (t : nat) (ext : list event) :
  Forall (fun ev => thread_of ev = t /\ lookup_event ev = true) ext ->
  view t ext = ext.
Proof.
  induction 1 as [|ev l [He _] _ IH]; simpl; [reflexivity|].
  rewrite He, Nat.eqb_refl. now rewrite IH.
Qed.

Lemma joins_ev1 (s1 s1' s2 : thread_state) (h : list event) (ev : event)
  (j : joined) :
  thread_of ev = 1 ->
  lookup_event ev = true ->
  (forall evs v, state_path 1 s1' evs v -> state_path 1 s1 (ev :: evs) v) ->
  joins s1' s2 (h ++ [ev]) j -> joins s1 s2 h j.
Proof.
  intros He Hl Hs (ext & v1 & v2 & Ht & Ho & Hd & H1 & H2 & Hf).
  exists (ev :: ext), v1, v2. rewrite Ht, <- app_assoc. simpl. rewrite He.
  simpl. repeat split; auto.
Qed.

Lemma joins_ev2 (s1 s2 s2' : thread_state) (h : list event) (ev : event)
  (j : joined) :
  thread_of ev = 2 ->
  lookup_event ev = true ->
  (forall evs v, state_path 2 s2' evs v -> state_path 2 s2 (ev :: evs) v) ->
  joins s1 s2' (h ++ [ev]) j -> joins s1 s2 h j.
Proof.
  intros He Hl Hs (ext & v1 & v2 & Ht & Ho & Hd & H1 & H2 & Hf).
  exists (ev :: ext), v1, v2. rewrite Ht, <- app_assoc. simpl. rewrite He.
  simpl. repeat split; auto.
Qed.

Lemma joins_weaken2 (s1 s2 s2' : thread_state) (h : list event) (j : joined) :
  (forall evs v, state_path 2 s2' evs v -> state_path 2 s2 evs v) ->
  joins s1 s2' h j -> joins s1 s2 h j.
Proof.
  intros Hs (ext & v1 & v2 & Ht & Ho & Hd & H1 & H2 & Hf).
  exists ext, v1, v2. repeat split; auto.
Qed.

Lemma enter_call (t : nat) (c : call) (k : outcome -> prog call value)
  (evs : list event) (v : value) :
  state_path t (Pending c k) evs v ->
  state_path t (Fresh (Call c k)) (Invoked t c :: evs) v.
Proof. intros (o & evs' & -> & Hp). simpl. now constructor. Qed.

Lemma leave_call (t : nat) (c : call) (k : outcome -> prog call value)
  (o : outcome) (evs : list event) (v : value) :
  state_path t (Fresh (k o)) evs v ->
  state_path t (Pending c k) (Settled t c o :: evs) v.
Proof. intros Hp. simpl. eauto. Qed.

Lemma pass_log (t : nat) (msg : jsstring) (k : prog call value)
  (evs : list event) (v : value) :
  state_path t (Fresh k) evs v ->
  state_path t (Fresh (LoggerError msg k)) (Logged t msg :: evs) v.
Proof. intros Hp. simpl. now constructor. Qed.

Lemma finish2_joins (w : world) (hist : list event) (v1 : value)
  (p2 : prog call value) :
  total p2 -> joins (Fresh (Ret v1)) (Fresh p2) hist (finish2 w hist v1 p2).
Proof.
  intros Ht. destruct (run_total w 2 Ht hist) as (ext & v2 & Hr & Hp & Hf).
  unfold finish2. rewrite Hr. exists ext, v1, v2. simpl.
  rewrite (view_other (t:=2) (u:=1)) by (auto; discriminate).
  rewrite (view_same Hf). repeat split; auto; [constructor|].
  eapply Forall_impl; [|exact Hf]. simpl. intuition.
Qed.

Lemma all2_right_joins (w : world) (c1 : call)
  (k1 : outcome -> prog call value)
  (settle1 : list event -> thread_state -> joined) :
  (forall h s, total_state s -> joins (Pending c1 k1) s h (settle1 h s)) ->
  forall p2, total p2 ->
  forall h,
    joins (Pending c1 k1) (Fresh p2) h (all2_right w c1 k1 settle1 p2 h).
Proof.
  intros Hs. induction 1 as [v2|c2 k2 Hc Hk IH|msg k Hk IH]; intros h; simpl.
  - eapply joins_weaken2; [|apply Hs; exact I].
    simpl. intros evs v [-> ->]. constructor.
  - apply joins_ev2 with (ev := Invoked 2 c2) (s2' := Pending c2 k2);
      [reflexivity|exact Hc|apply enter_call|].
    destruct (left_first w (h ++ [Invoked 2 c2])).
    + apply Hs. now split.
    + eapply joins_ev2 with (ev := Settled 2 c2 _);
        [reflexivity|exact Hc|apply leave_call|]. apply IH.
  - apply joins_ev2 with (ev := Logged 2 msg) (s2' := Fresh k);
      [reflexivity|reflexivity|apply pass_log|]. apply IH.
Qed.

Lemma settle1_joins (w : world) (c1 : call)
  (k1 : outcome -> prog call value) :
  lookup_call c1 = true ->
  (forall o hist s2, total_state s2 ->
     joins (Fresh (k1 o)) s2 hist (all2 w (k1 o) hist s2)) ->
  forall h s, total_state s ->
    joins (Pending c1 k1) s h
      (all2 w (k1 (respond w h c1)) (h ++ [Settled 1 c1 (respond w h c1)]) s).
Proof.
  intros Hc IH h s Hs.
  eapply joins_ev1 with (ev := Settled 1 c1 _);
    [reflexivity|exact Hc|apply leave_call|]. now apply IH.
Qed.

Lemma all2_joins (w : world) (p1 : prog call value) :
  total p1 ->
  forall hist s2, total_state s2 ->
    joins (Fresh p1) s2 hist (all2 w p1 hist s2).
Proof.
  induction 1 as [v1|c1 k1 Hc Hk IH|msg k Hk IH]; intros hist s2 H2.
  - destruct s2 as [p2|c2 k2|v2]; simpl.
    + now apply finish2_joins.
    + destruct H2 as [Hc2 H2].
      eapply joins_ev2 with (ev := Settled 2 c2 _);
        [reflexivity|exact Hc2|apply leave_call|].
      apply finish2_joins. apply H2.
    + exists [], v1, v2. rewrite app_nil_r. simpl.
      repeat split; auto. constructor.
  - simpl. pose proof (@settle1_joins w c1 k1 Hc IH) as Hs.
    apply joins_ev1 with (ev := Invoked 1 c1) (s1' := Pending c1 k1);
      [reflexivity|exact Hc|apply enter_call|].
    destruct s2 as [p2|c2 k2|v2].
    + now apply all2_right_joins.
    + destruct H2 as [Hc2 H2].
      destruct (left_first w (hist ++ [Invoked 1 c1])).
      * apply Hs. now split.
      * eapply joins_ev2 with (ev := Settled 2 c2 _);
          [reflexivity|exact Hc2|apply leave_call|].
        apply all2_right_joins; [exact Hs|apply H2].
    + now apply Hs.
  - simpl. apply joins_ev1 with (ev := Logged 1 msg) (s1' := Fresh k);
      [reflexivity|reflexivity|apply pass_log|]. now apply IH.
Qed.

(** Both threads of a join start before anything settles. *)
Lemma all2_starts (w : world) (c1 c2 : call)
  (k1 k2 : outcome -> prog call value) (hist : list event) :
  total (Call c1 k1) -> total (Call c2 k2) ->
  exists rest,
    j_trace (all2 w (Call c1 k1) hist (Fresh (Call c2 k2))) =
      hist ++ Invoked 1 c1 :: Invoked 2 c2 :: rest.
Proof.
  intros H1 H2. inversion H1 as [|? ? Hc1 Hk1|]; subst.
  inversion H2 as [|? ? Hc2 Hk2|]; subst.
  pose proof (@settle1_joins w c1 k1 Hc1
                (fun o hist s2 => @all2_joins w (k1 o) (Hk1 o) hist s2)) as Hs.
  simpl.
  destruct (left_first w ((hist ++ [Invoked 1 c1]) ++ [Invoked 2 c2])).
  - destruct (Hs ((hist ++ [Invoked 1 c1]) ++ [Invoked 2 c2]) (Pending c2 k2))
      as (ext & _ & _ & -> & _); [now split|].
    exists ext. now rewrite <- !app_assoc.
  - set (h' := (hist ++ [Invoked 1 c1]) ++ [Invoked 2 c2]).
    destruct (@all2_right_joins w c1 k1 _ Hs _ (Hk2 (respond w h' c2))
                (h' ++ [Settled 2 c2 (respond w h' c2)]))
      as (ext & _ & _ & -> & _). subst h'.
    eexists. rewrite <- !app_assoc. simpl. reflexivity.
Qed.

(** ** The resolver inside a handler *)

Ltac show_total :=
  repeat first
    [ progress simpl
    | match goal with
      | |- total (Ret _) => constructor
      | |- total (Call _ _) => constructor; [reflexivity|intros [?|?]]
      | |- total (LoggerError _ _) => constructor
      | |- context [truthy ?v] => destruct (truthy v)
      end ].

Lemma findProduct_total (id : jsstring) : total (findProduct id).
Proof.
  destruct (blank id) eqn:Hb.
  - rewrite (findProduct_blank _ Hb). constructor.
  - enter_findProduct id Hb. unfold and_then.
    destruct (all_digits_test (trim id)); show_total.
Qed.

Lemma findProduct_starts (id : jsstring) :
  blank id = false -> exists c k, findProduct id = Call c k.
Proof.
  intros Hb. enter_findProduct id Hb. unfold and_then.
  destruct (all_digits_test (trim id)); simpl; eauto.
Qed.

Lemma compare_joined (w : world) (a b : jsstring) :
  joins (Fresh (findProduct a)) (Fresh (findProduct b)) []
    (promise_all2 w [] (findProduct a) (findProduct b)).
Proof.
  apply all2_joins; [apply findProduct_total|].
  simpl. apply findProduct_total.
Qed.

Lemma no_sampling (ext : list event) :
  Forall (fun ev => (thread_of ev = 1 \/ thread_of ev = 2) /\
                    lookup_event ev = true) ext ->
  existsb sampling_event ext = false.
Proof.
  induction 1 as [|ev l [_ He] _ IH]; simpl; [reflexivity|].
  rewrite IH, orb_false_r.
  destruct ev as [t c|t c o|t m]; try reflexivity; now destruct c.
Qed.

Lemma exec_from_lift {A B} (w : world) (p : prog call A)
  (k : A -> prog action B) (hist : list event) (left : list thread_state) :
  exec_from w hist left (bind (lift p) k) =
    match run w 0 hist p with
    | (h, Fulfilled a) => exec_from w h left (k a)
    | (h, Rejected e) => mkExecution h (Rejected e) left
    end.
Proof.
  revert hist. induction p as [a|e|c k' IH|msg p IH]; intros hist; simpl.
  - reflexivity.
  - reflexivity.
  - apply IH.
  - apply IH.
Qed.

Lemma truthy_not_nullish (v : value) : truthy v = true -> nullish v = false.
Proof. now destruct v. Qed.

Lemma has_product (d : value) :
  no_product d = false ->
  nullish d = false /\ nullish (get d (lit "product")) = false.
Proof.
  unfold no_product, opt_get. destruct (nullish d); simpl.
  - discriminate.
  - intros H. apply negb_false_iff in H. split; [reflexivity|].
    now apply truthy_not_nullish.
Qed.

Lemma member_ok {C} (v : value) (k : jsstring) :
  nullish v = false -> @member C v k = Ret (get v k).
Proof. unfold member. now intros ->. Qed.

Ltac members :=
  repeat match goal with
  | H : nullish ?v = false |- context [member ?v ?k] =>
      rewrite (member_ok _ k H)
  end.

(** What [compareProducts] does once its two identifiers passed the
    validation: the join of the two resolvers, then the rest of the handler
    on the two results. *)
Lemma exec_compare (w : world) (a b : jsstring) :
  blank a = false ->
  blank b = false ->
  exists d1 d2,
    let j := promise_all2 w [] (findProduct a) (findProduct b) in
    j_outcome j = Fulfilled (VArr [d1; d2]) /\
    j_detached j = None /\
    existsb sampling_event (j_trace j) = false /\
    path 1 (findProduct a) (view 1 (j_trace j)) d1 /\
    path 2 (findProduct b) (view 2 (j_trace j)) d2 /\
    exec w (compareProducts a b) =
      exec_from w (j_trace j) []
        (if no_product d1 then
           Ret (mkResponse (dquote ++ a ++ dquote ++ lit " not found.")
                  (Some true))
         else if no_product d2 then
           Ret (mkResponse (dquote ++ b ++ dquote ++ lit " not found.")
                  (Some true))
         else
           try_catch
             (p1 <- member d1 (lit "product") ;;
              p2 <- member d2 (lit "product") ;;
              res <- await (Do (RequestSampling
                                  (Literal (comparison_request p1 p2)))) ;;
              p1 <- member d1 (lit "product") ;;
              name1 <- member p1 (lit "product_name") ;;
              p2 <- member d2 (lit "product") ;;
              name2 <- member p2 (lit "product_name") ;;
              responseText <- await (Do (GetResponseText res)) ;;
              Ret (mkResponse
                     (lit "# " ++ to_string name1 ++ lit " vs " ++
                      to_string name2 ++ nl ++ nl ++ to_string responseText)
                     None))
             (fun _ =>
                p1 <- member d1 (lit "product") ;;
                name1 <- member p1 (lit "product_name") ;;
                p2 <- member d2 (lit "product") ;;
                name2 <- member p2 (lit "product_name") ;;
                p1 <- member d1 (lit "product") ;;
                grade1 <- member p1 (lit "nutriscore_grade") ;;
                p2 <- member d2 (lit "product") ;;
                grade2 <- member p2 (lit "nutriscore_grade") ;;
                Ret (mkResponse
                       (lit "# " ++ to_string name1 ++ lit " vs " ++
                        to_string name2 ++ nl ++ lit "Nutri-Score: " ++
                        to_string grade1 ++ lit " vs " ++ to_string grade2)
                       None))).
Proof.
  intros Ha Hb.
  destruct (compare_joined w a b)
    as (ext & d1 & d2 & Ht & Ho & Hd & H1 & H2 & Hf).
  exists d1, d2. cbv zeta. simpl in Ht. rewrite Ht.
  repeat split; auto using no_sampling.
  unfold exec, compareProducts. rewrite Ha, Hb.
  simpl. rewrite Ho, Hd, Ht. simpl.
  destruct (get_pair d1 d2) as [E0 E1]. simpl in E0, E1.
  rewrite !E0, !E1. reflexivity.
Qed.

Lemma analyze_fallback (w : world) (id : jsstring) (h : list event)
  (d e : value) :
  blank id = false ->
  run w 0 [] (findProduct id) = (h, Fulfilled d) ->
  no_product d = false ->
  let p := get d (lit "product") in
  let sampling := RequestSampling (Literal (analysis_request p)) in
  respond w (h ++ [Invoked 0 sampling]) sampling = Rejected e ->
  exec w (analyzeProduct id) =
    mkExecution (h ++ [Invoked 0 sampling; Settled 0 sampling (Rejected e)])
      (Fulfilled
         (mkResponse
            (lit "# " ++ to_string (get p (lit "product_name")) ++ nl ++
             lit "Brand: " ++ to_string (get p (lit "brands")) ++ nl ++
             lit "Nutri-Score: " ++
             to_string (get p (lit "nutriscore_grade")) ++ nl ++
             lit "Ingredients: " ++
             to_string (get p (lit "ingredients_text"))) None)) [].
Proof.
  intros Hb Hrun Hd p sampling Hs.
  destruct (has_product _ Hd) as [Hn Hp]. fold p in Hp.
  unfold exec, analyzeProduct. rewrite Hb, exec_from_lift, Hrun, Hd.
  members. simpl. fold p. fold sampling. rewrite Hs.
  simpl. members. reflexivity.
Qed.

Lemma compare_fallback (w : world) (a b : jsstring) (d1 d2 e : value) :
  blank a = false ->
  blank b = false ->
  let j := promise_all2 w [] (findProduct a) (findProduct b) in
  j_outcome j = Fulfilled (VArr [d1; d2]) ->
  no_product d1 = false ->
  no_product d2 = false ->
  let p1 := get d1 (lit "product") in
  let p2 := get d2 (lit "product") in
  let sampling := RequestSampling (Literal (comparison_request p1 p2)) in
  respond w (j_trace j ++ [Invoked 0 sampling]) sampling = Rejected e ->
  exec w (compareProducts a b) =
    mkExecution
      (j_trace j ++ [Invoked 0 sampling; Settled 0 sampling (Rejected e)])
      (Fulfilled
         (mkResponse
            (lit "# " ++ to_string (get p1 (lit "product_name")) ++
             lit " vs " ++ to_string (get p2 (lit "product_name")) ++ nl ++
             lit "Nutri-Score: " ++
             to_string (get p1 (lit "nutriscore_grade")) ++ lit " vs " ++
             to_string (get p2 (lit "nutriscore_grade"))) None)) [].
Proof.
  intros Ha Hb j Ho Hn1 Hn2 p1 p2 sampling Hs.
  destruct (exec_compare w a b Ha Hb)
    as (d1' & d2' & Ho' & _ & _ & _ & _ & ->).
  fold j in Ho'. rewrite Ho in Ho'. injection Ho' as <- <-.
  rewrite Hn1, Hn2.
  destruct (has_product _ Hn1) as [N1 M1].
  destruct (has_product _ Hn2) as [N2 M2].
  members. simpl. fold p1 p2 sampling j. rewrite Hs. simpl.
  fold p1 p2 in M1, M2. members.
  reflexivity.
Qed.

(** ** The handlers: properties *)


(** C7. In [compareProducts], when a resolution gives no product the
    response is the not-found message of that identifier with
    [isError = true], the first identifier being looked at first; nothing in
    the trace is a sampling call. *)
Theorem compareProducts_not_found (w : world) (a b : jsstring)
  (d1 d2 : value) :
  blank a = false ->
  blank b = false ->
  j_outcome (promise_all2 w [] (findProduct a) (findProduct b))
    = Fulfilled (VArr [d1; d2]) ->
  no_product d1 = true \/ no_product d2 = true ->
  result (exec w (compareProducts a b)) =
    Fulfilled
      (mkResponse
         (dquote ++ (if no_product d1 then a else b) ++ dquote ++
          lit " not found.") (Some true)) /\
  existsb sampling_event (trace (exec w (compareProducts a b))) = false.
Proof.
  intros Ha Hb Ho Hn.
  destruct (exec_compare w a b Ha Hb)
    as (d1' & d2' & Ho' & _ & Hs & _ & _ & ->).
  rewrite Ho in Ho'. injection Ho' as <- <-.
  destruct (no_product d1); [now split|].
  destruct (no_product d2); [now split|].
  destruct Hn; discriminate.
Qed.



(** ** More about [trim] *)

Lemma trimStart_head (s : jsstring) :
  trimStart s = [] \/
  exists c r, trimStart s = c :: r /\ is_white_space c = false.
Proof.
  induction s as [|c r IH]; simpl; [now left|].
  destruct (is_white_space c) eqn:E; [exact IH|]. right. eauto.
Qed.

Lemma trimStart_snoc (l : jsstring) (c : N) :
  is_white_space c = false -> trimStart (l ++ [c]) = trimStart l ++ [c].
Proof.
  intros Hc. induction l as [|x l IH]; simpl.
  - now rewrite Hc.
  - destruct (is_white_space x); [exact IH|reflexivity].
Qed.

Lemma trimEnd_cons (c : N) (r : jsstring) :
  is_white_space c = false -> trimEnd (c :: r) = c :: trimEnd r.
Proof.
  intros Hc. unfold trimEnd. simpl.
  rewrite (trimStart_snoc (rev r) c Hc), rev_app_distr. reflexivity.
Qed.

Lemma trimEnd_idem (s : jsstring) : trimEnd (trimEnd s) = trimEnd s.
Proof.
  unfold trimEnd. now rewrite rev_involutive, trimStart_idem.
Qed.

Lemma trim_idem (s : jsstring) : trim (trim s) = trim s.
Proof.
  unfold trim. destruct (trimStart_head s) as [E|(c & r & E & Hc)]; rewrite E.
  - reflexivity.
  - rewrite (trimEnd_cons c r Hc). simpl. rewrite Hc.
    rewrite <- (trimEnd_cons c r Hc). apply trimEnd_idem.
Qed.

(** ** The resolver: what the claims leave out *)

(** X1.  White space around the identifier never changes the resolution: the
    resolver is the same program on [id] and on [id.trim()]. *)
Theorem findProduct_trim (id : jsstring) :
  findProduct (trim id) = findProduct id.
Proof.
  unfold findProduct. now rewrite trim_idem.
Qed.


(** X3.  One resolution costs at most three calls of the lookup client (two when
    the identifier is not all digits), among them at most one search, which
    is always for the trimmed identifier, page 1, page size 1; nothing else
    is ever called. *)
Theorem findProduct_call_budget (w : world) (id : jsstring) :
  let tr := fst (run w 0 [] (findProduct id)) in
  List.length (invocations tr) <= (if all_digits_test (trim id) then 3 else 2) /\
  (searches tr = [] \/
   searches tr = [Invoked 0 (SearchProducts (VStr (trim id)) 1 1)]) /\
  forallb lookup_event tr = true.
Proof.
  destruct (blank id) eqn:Hb.
  - rewrite (findProduct_blank _ Hb). simpl.
    destruct (all_digits_test (trim id)); repeat split; auto.
  - enter_findProduct id Hb.
    destruct (all_digits_test (trim id)); settle;
      repeat split; auto.
Qed.

(** ** The handlers: what the claims leave out *)

Lemma lookup_no_sampling (P : event -> Prop) (l : list event) :
  Forall (fun ev => P ev /\ lookup_event ev = true) l ->
  existsb sampling_event l = false /\ sampling_invocations l = [].
Proof.
  induction 1 as [|ev l [_ He] _ [IH1 IH2]]; simpl; [now split|].
  rewrite IH1, IH2, orb_false_r.
  destruct ev as [t c|t c o|t m]; try (now split); now destruct c.
Qed.

Lemma not_sampled (l : list event) :
  existsb sampling_event l = false -> sampling_invocations l = [].
Proof.
  induction l as [|ev l IH]; simpl; [reflexivity|].
  intros H. apply orb_false_iff in H as [He Hl]. rewrite (IH Hl).
  destruct ev as [t c|t c o|t m]; try reflexivity.
  destruct c; try reflexivity; discriminate.
Qed.

(** The resolver awaited by a handler: it fulfils, and what it did holds
    no sampling call. *)
Lemma resolve_total (w : world) (id : jsstring) :
  exists h d,
    run w 0 [] (findProduct id) = (h, Fulfilled d) /\
    sampling_invocations h = [].
Proof.
  destruct (run_total w 0 (findProduct_total id) [])
    as (ext & d & Hr & _ & Hf).
  exists ext, d. split; [exact Hr|]. now apply lookup_no_sampling in Hf.
Qed.

Lemma no_product_null : no_product VNull = true.
Proof. reflexivity. Qed.

(** X5.  Blank input is turned down by every handler before anything is called:
    the trace is empty and the response is the handler's own message with
    [isError = true].  For [compareProducts] one blank identifier is
    enough, whichever it is. *)
Theorem handlers_reject_blank (w : world) (id other : jsstring) :
  forallb is_white_space id = true ->
  exec w (analyzeProduct id) =
    mkExecution []
      (Fulfilled
         (mkResponse (lit "Provide a product name or barcode.") (Some true)))
      [] /\
  exec w (suggestRecipes id) =
    mkExecution []
      (Fulfilled (mkResponse (lit "Provide a product.") (Some true))) [] /\
  exec w (compareProducts id other) =
    mkExecution []
      (Fulfilled (mkResponse (lit "Provide both products.") (Some true))) [] /\
  exec w (compareProducts other id) =
    mkExecution []
      (Fulfilled (mkResponse (lit "Provide both products.") (Some true))) [].
Proof.
  intros H. apply blank_spec in H.
  unfold exec, analyzeProduct, suggestRecipes, compareProducts.
  rewrite H, orb_true_r. repeat split.
Qed.

(** X6.  When the resolver comes back without a product, be it [null] or a
    bundle around a falsy product, [analyzeProduct] and [suggestRecipes]
    answer with their not-found message, quoting the identifier as it was
    given, with [isError = true]; the handler calls nothing itself. *)
Theorem not_found_reports (w : world) (id : jsstring) (h : list event)
  (d : value) :
  blank id = false ->
  run w 0 [] (findProduct id) = (h, Fulfilled d) ->
  no_product d = true ->
  exec w (analyzeProduct id) =
    mkExecution h
      (Fulfilled
         (mkResponse
            (dquote ++ id ++ dquote ++
             lit " not found. Try searchProducts first.") (Some true))) [] /\
  exec w (suggestRecipes id) =
    mkExecution h
      (Fulfilled
         (mkResponse (dquote ++ id ++ dquote ++ lit " not found.")
            (Some true))) [].
Proof.
  intros Hb Hr Hd. unfold exec, analyzeProduct, suggestRecipes.
  rewrite Hb, !exec_from_lift, Hr, Hd. split; reflexivity.
Qed.





(** X11.  A product without the fields the fallback prints: the report of
    [analyzeProduct] spells [undefined] in their place; the fallback has
    none of the defaults of the title of a successful report. *)
Theorem analyzeProduct_fallback_missing_fields (w : world) (id : jsstring)
  (h : list event) (d e : value) :
  blank id = false ->
  run w 0 [] (findProduct id) = (h, Fulfilled d) ->
  no_product d = false ->
  let p := get d (lit "product") in
  let sampling := RequestSampling (Literal (analysis_request p)) in
  respond w (h ++ [Invoked 0 sampling]) sampling = Rejected e ->
  get p (lit "product_name") = VUndefined ->
  get p (lit "brands") = VUndefined ->
  get p (lit "nutriscore_grade") = VUndefined ->
  get p (lit "ingredients_text") = VUndefined ->
  result (exec w (analyzeProduct id)) =
    Fulfilled
      (mkResponse
         (lit "# undefined" ++ nl ++ lit "Brand: undefined" ++ nl ++
          lit "Nutri-Score: undefined" ++ nl ++
          lit "Ingredients: undefined") None).
Proof.
  intros Hb Hrun Hd p sampling Hs E1 E2 E3 E4.
  rewrite (analyze_fallback w id Hb Hrun Hd Hs). simpl. fold p.
  rewrite E1, E2, E3, E4. reflexivity.
Qed.



(** X14.  [suggestRecipes] reads [e.message] in its [catch]: when the gateway
    rejects with [null] or [undefined] that read throws, and the handler
    itself rejects with the [TypeError] instead of answering. *)
Theorem suggestRecipes_rejects_on_nullish (w : world) (id : jsstring)
  (h : list event) (d req e : value) :
  blank id = false ->
  run w 0 [] (findProduct id) = (h, Fulfilled d) ->
  no_product d = false ->
  let p := get d (lit "product") in
  let build := CreateRecipeSuggestionRequest p in
  let sampling := RequestSampling (Built req) in
  let h' := h ++ [Invoked 0 build; Settled 0 build (Fulfilled req)] in
  respond w (h ++ [Invoked 0 build]) build = Fulfilled req ->
  respond w (h' ++ [Invoked 0 sampling]) sampling = Rejected e ->
  nullish e = true ->
  result (exec w (suggestRecipes id)) =
    Rejected
      (VError (lit "TypeError")
         (lit "Cannot read properties of " ++ to_string e ++
          lit " (reading '" ++ lit "message" ++ lit "')")).
Proof.
  intros Hb Hrun Hd p build sampling h' Hq Hs He.
  destruct (has_product _ Hd) as [Hn Hp].
  unfold exec, suggestRecipes. rewrite Hb, exec_from_lift, Hrun, Hd.
  members. simpl. fold p build. rewrite Hq. simpl.
  fold sampling h'. rewrite Hs. simpl. unfold member. rewrite He.
  reflexivity.
Qed.


Lemma sampling_invocations_app (l1 l2 : list event) :
  sampling_invocations (l1 ++ l2) =
    sampling_invocations l1 ++ sampling_invocations l2.
Proof. apply filter_app. Qed.

Ltac count_sampling Hh :=
  simpl; rewrite ?sampling_invocations_app, ?Hh; simpl; auto.

(** X16.  No handler retries the gateway: whatever the collaborators do, one
    invocation of [analyzeProduct], [compareProducts] or [suggestRecipes]
    calls [requestSampling] at most once. *)
Theorem sampling_at_most_once (w : world) (id a b : jsstring) :
  List.length (sampling_invocations (trace (exec w (analyzeProduct id)))) <= 1
  /\
  List.length
    (sampling_invocations (trace (exec w (compareProducts a b)))) <= 1 /\
  List.length (sampling_invocations (trace (exec w (suggestRecipes id)))) <= 1.
Proof.
  assert (Hres : forall k : value -> prog action response,
            (forall h d, sampling_invocations h = [] ->
               List.length
                 (sampling_invocations (trace (exec_from w h [] (k d)))) <= 1) ->
            List.length
              (sampling_invocations
                 (trace (exec_from w [] [] (bind (lift (findProduct id)) k))))
              <= 1).
  { intros k Hk. destruct (resolve_total w id) as (h & d & Hr & Hh).
    rewrite exec_from_lift, Hr. now apply Hk. }
  split; [|split].
  - unfold exec, analyzeProduct. destruct (blank id); [simpl; auto|].
    apply Hres. intros h d Hh.
    destruct (no_product d) eqn:Hd; [count_sampling Hh|].
    destruct (has_product _ Hd) as [Hn Hp]. members. simpl.
    match goal with
    | |- context [respond ?w ?h ?c] => destruct (respond w h c)
    end; simpl; members; simpl.
    + match goal with
      | |- context [respond ?w ?h ?c] => destruct (respond w h c)
      end; simpl; members; count_sampling Hh.
    + count_sampling Hh.
  - destruct (blank a) eqn:Ha; [|destruct (blank b) eqn:Hb].
    + unfold exec, compareProducts. rewrite Ha. simpl. auto.
    + unfold exec, compareProducts. rewrite Ha, Hb. simpl. auto.
    + destruct (exec_compare w a b Ha Hb)
        as (d1 & d2 & _ & _ & Hs & _ & _ & ->). simpl in Hs.
      apply not_sampled in Hs.
      destruct (no_product d1) eqn:Hn1; [count_sampling Hs|].
      destruct (no_product d2) eqn:Hn2; [count_sampling Hs|].
      destruct (has_product _ Hn1) as [N1 M1].
      destruct (has_product _ Hn2) as [N2 M2].
      members. simpl.
      match goal with
      | |- context [respond ?w ?h ?c] => destruct (respond w h c)
      end; simpl; members; simpl.
      * match goal with
        | |- context [respond ?w ?h ?c] => destruct (respond w h c)
        end; simpl; members; count_sampling Hs.
      * count_sampling Hs.
  - unfold exec, suggestRecipes. destruct (blank id); [simpl; auto|].
    apply Hres. intros h d Hh.
    destruct (no_product d) eqn:Hd; [count_sampling Hh|].
    destruct (has_product _ Hd) as [Hn Hp]. members. simpl.
    match goal with
    | |- context [respond ?w ?h ?c] => destruct (respond w h c) as [req|e]
    end; simpl.
    + match goal with
      | |- context [respond ?w ?h ?c] => destruct (respond w h c) as [res|e]
      end; simpl; members; simpl.
      * match goal with
        | |- context [respond ?w ?h ?c] => destruct (respond w h c) as [t|e]
        end; simpl; [count_sampling Hh|].
        unfold member. destruct (nullish e); count_sampling Hh.
      * unfold member. destruct (nullish e); count_sampling Hh.
    + unfold member. destruct (nullish e); count_sampling Hh.
Qed.

(** ** The order of settlement does not matter to [compareProducts] *)

Lemma run_answer {A} (f : call -> outcome) (sched : list event -> bool)
  (t : nat) (p : prog call A) (hist : list event) :
  snd (run (mkWorld (fun _ => f) sched) t hist p) = answer f p.
Proof.
  revert hist. induction p as [a|e|c k IH|msg k IH]; intros hist; simpl;
    auto.
Qed.

Lemma total_answer (f : call -> outcome) (p : prog call value) :
  total p -> exists v, answer f p = Fulfilled v.
Proof. induction 1; simpl; eauto. Qed.

Lemma finish2_answer (f : call -> outcome) (sched : list event -> bool)
  (hist : list event) (v1 v2 : value) (p2 : prog call value) :
  answer f p2 = Fulfilled v2 ->
  j_outcome (finish2 (mkWorld (fun _ => f) sched) hist v1 p2) =
    Fulfilled (VArr [v1; v2]).
Proof.
  intros H. unfold finish2.
  pose proof (run_answer f sched 2 p2 hist) as Hr. rewrite H in Hr.
  destruct (run _ 2 hist p2) as [h r]. simpl in Hr. now subst r.
Qed.

Lemma all2_right_answer (f : call -> outcome) (sched : list event -> bool)
  (c1 : call) (k1 : outcome -> prog call value)
  (settle1 : list event -> thread_state -> joined) (v1 : value) :
  (forall h s v2, answer_state f s = Fulfilled v2 ->
     j_outcome (settle1 h s) = Fulfilled (VArr [v1; v2])) ->
  forall p2 v2 h,
    answer f p2 = Fulfilled v2 ->
    j_outcome
      (all2_right (mkWorld (fun _ => f) sched) c1 k1 settle1 p2 h) =
      Fulfilled (VArr [v1; v2]).
Proof.
  intros Hs. induction p2 as [v|e|c2 k2 IH|msg k IH]; intros v2 h Hp; simpl.
  - apply Hs. exact Hp.
  - discriminate Hp.
  - destruct (sched (h ++ [Invoked 2 c2])).
    + apply Hs. exact Hp.
    + apply IH. exact Hp.
  - apply IH. exact Hp.
Qed.

Lemma all2_answer (f : call -> outcome) (sched : list event -> bool)
  (p1 : prog call value) :
  forall hist s2 v1 v2,
    answer f p1 = Fulfilled v1 ->
    answer_state f s2 = Fulfilled v2 ->
    j_outcome (all2 (mkWorld (fun _ => f) sched) p1 hist s2) =
      Fulfilled (VArr [v1; v2]).
Proof.
  induction p1 as [v|e|c1 k1 IH|msg k IH]; intros hist s2 v1 v2 H1 H2; simpl.
  - injection H1 as ->. destruct s2 as [p2|c2 k2|v']; simpl in *.
    + now apply finish2_answer.
    + now apply finish2_answer.
    + now injection H2 as ->.
  - discriminate H1.
  - simpl in H1.
    assert (Hs : forall h s v, answer_state f s = Fulfilled v ->
              j_outcome
                (all2 (mkWorld (fun _ => f) sched) (k1 (f c1))
                   (h ++ [Settled 1 c1 (f c1)]) s) =
                Fulfilled (VArr [v1; v])).
    { intros h s v Hv. now apply IH. }
    destruct s2 as [p2|c2 k2|v']; simpl in H2.
    + now apply (all2_right_answer f sched c1 k1 _ Hs).
    + destruct (sched (hist ++ [Invoked 1 c1])).
      * now apply Hs.
      * now apply (all2_right_answer f sched c1 k1 _ Hs).
    + now apply Hs.
  - now apply IH.
Qed.

(** X17.  With collaborators that answer by the call alone, the response of
    [compareProducts] is the same whichever of the two resolvers' calls
    settle first. *)
Theorem compareProducts_schedule_independent (f : call -> outcome)
  (sched sched' : list event -> bool) (a b : jsstring) :
  result (exec (mkWorld (fun _ => f) sched) (compareProducts a b)) =
  result (exec (mkWorld (fun _ => f) sched') (compareProducts a b)).
Proof.
  destruct (blank a) eqn:Ha; [|destruct (blank b) eqn:Hb].
  - unfold exec, compareProducts. now rewrite Ha.
  - unfold exec, compareProducts. now rewrite Ha, Hb.
  - destruct (total_answer f (findProduct_total a)) as [v1 E1].
    destruct (total_answer f (findProduct_total b)) as [v2 E2].
    destruct (exec_compare (mkWorld (fun _ => f) sched) a b Ha Hb)
      as (d1 & d2 & Ho & _ & _ & _ & _ & ->).
    destruct (exec_compare (mkWorld (fun _ => f) sched') a b Ha Hb)
      as (d1' & d2' & Ho' & _ & _ & _ & _ & ->).
    unfold promise_all2 in Ho, Ho'.
    rewrite (all2_answer f sched (findProduct a) [] (Fresh (findProduct b))
               E1 E2) in Ho.
    rewrite (all2_answer f sched' (findProduct a) [] (Fresh (findProduct b))
               E1 E2) in Ho'.
    injection Ho as <- <-. injection Ho' as <- <-.
    destruct (no_product v1) eqn:Hn1; [reflexivity|].
    destruct (no_product v2) eqn:Hn2; [reflexivity|].
    destruct (has_product _ Hn1) as [N1 M1].
    destruct (has_product _ Hn2) as [N2 M2].
    members. simpl.
    destruct (f (RequestSampling _)) as [res|e]; simpl; members; simpl.
    + destruct (f (GetResponseText res)); simpl; members; reflexivity.
    + reflexivity.
Qed.

Transparent lit.

End Tools.

(** ** The properties at concrete inputs

    Numbers are the integers; the worlds are the example databases. *)

Arguments Rejected {number A} e.

Local Abbreviation resolve := (findProduct integer_truthy integer_to_string).
Local Abbreviation analyze :=
  (analyzeProduct integer_truthy integer_to_string).
Local Abbreviation compare :=
  (compareProducts integer_truthy integer_to_string).
Local Abbreviation recipes :=
  (suggestRecipes integer_truthy integer_to_string).
Local Abbreviation the_shop := (shop (number := Z)).
Local Abbreviation nutella_hit :=
  (summaries (number := Z) [VObj [text_field "barcode" "3017620422003"]]).

(** C1.  With an index that lists a barcode the database no longer has,
    the search hits, the second lookup fulfils with [null], and the resolver
    returns [{ product: null }]: a bundle that is not absent and holds no
    product.  The direct path tests the product before wrapping it; this
    path does not. *)
Theorem findProduct_null_bundle :
  let search := SearchProducts (VStr (lit "nutella")) 1 1 in
  let fetch := GetProductByBarcode (VStr (lit "4000000000001")) in
  run stale_index 0 [] (resolve (lit "nutella")) =
    ([Invoked 0 search;
      Settled 0 search
        (Fulfilled
           (summaries [VObj [text_field "barcode" "4000000000001"]]));
      Invoked 0 fetch; Settled 0 fetch (Fulfilled VNull)],
     Fulfilled (bundle VNull)) /\
  truthy integer_truthy (bundle (number := Z) VNull) = true /\
  no_product integer_truthy (bundle (number := Z) VNull) = true.
Proof. repeat split. Qed.

(** Hence the invariant, as worded, does not hold of the resolver. *)
Lemma bundle_invariant_fails :
  ~ bundle_invariant integer_truthy integer_to_string.
Proof.
  intros H.
  specialize (H stale_index (lit "nutella") (bundle VNull) eq_refl).
  assert (E : false = true) by (apply H; discriminate).
  discriminate E.
Qed.






Lemma findProduct_search_only_witness :
  let search := SearchProducts (VStr (lit "nutella")) 1 1 in
  let fetch := GetProductByBarcode (VStr (lit "3017620422003")) in
  fst (run the_shop 0 [] (resolve (lit "nutella "))) =
    [Invoked 0 search; Settled 0 search (Fulfilled nutella_hit);
     Invoked 0 fetch; Settled 0 fetch (Fulfilled nutella)].
Proof.
  exact (findProduct_search_only integer_truthy integer_to_string the_shop
           (lit "nutella ") eq_refl eq_refl).
Defined.

Lemma findProduct_blank_absent_witness :
  run the_shop 0 [] (resolve [32; 9; 160; 10]%N) = ([], Fulfilled VNull).
Proof.
  exact (findProduct_blank_absent integer_truthy integer_to_string the_shop
           [32; 9; 160; 10]%N eq_refl).
Defined.

Lemma compareProducts_not_found_witness :
  result (exec the_shop (compare (lit "nutella") (lit "9999999999999"))) =
    Fulfilled
      (mkResponse
         (dquote ++ lit "9999999999999" ++ dquote ++ lit " not found.")
         (Some true)) /\
  existsb sampling_event
    (trace (exec the_shop (compare (lit "nutella") (lit "9999999999999"))))
    = false.
Proof.
  exact (compareProducts_not_found integer_truthy integer_to_string the_shop
           (lit "nutella") (lit "9999999999999")
           (d1 := bundle nutella) (d2 := VNull)
           eq_refl eq_refl eq_refl (or_intror eq_refl)).
Defined.



(** ** More properties at concrete inputs *)

Local Abbreviation assistant :=
  (shop_with (number := Z) (Fulfilled (reply "Quite sugary."))
     (Fulfilled (VObj [])) reply_text).
Local Abbreviation garbled :=
  (shop_with (number := Z) (Fulfilled VNull) (Fulfilled (VObj []))
     (fun _ => Rejected (VError (lit "TypeError") (lit "No content")))).
Local Abbreviation silent :=
  (shop_with (number := Z) (Rejected VUndefined) (Fulfilled (VObj []))
     reply_text).
Local Abbreviation no_templates :=
  (shop_with (number := Z) (Rejected VUndefined)
     (Rejected (VError (lit "Error") (lit "No template"))) reply_text).


Lemma findProduct_bundle_product_witness :
  exists p : value,
    bundle (number := Z) VNull = bundle p /\
    ((fst (run stale_index 0 [] (resolve (lit "nutella"))) =
        [Invoked 0 (GetProductByBarcode (VStr (trim (lit "nutella"))));
         Settled 0 (GetProductByBarcode (VStr (trim (lit "nutella"))))
           (Fulfilled p)] /\
      truthy integer_truthy p = true) \/
     (exists results,
        let fetch := GetProductByBarcode (first_barcode results) in
        search_settled (fst (run stale_index 0 [] (resolve (lit "nutella")))) =
          Some (Fulfilled results,
                [Invoked 0 fetch; Settled 0 fetch (Fulfilled p)]))).
Proof.
  apply (findProduct_bundle_product integer_truthy integer_to_string
           stale_index (lit "nutella")).
  - reflexivity.
  - discriminate.
Defined.

Lemma handlers_reject_blank_witness :
  result (exec the_shop (analyze [32; 9]%N)) =
    Fulfilled
      (mkResponse (lit "Provide a product name or barcode.") (Some true)) /\
  trace (exec the_shop (compare (lit "nutella") [32; 9]%N)) = [].
Proof.
  destruct (handlers_reject_blank integer_truthy integer_to_string the_shop
              [32; 9]%N (lit "nutella") eq_refl) as (H1 & _ & _ & H4).
  rewrite H1, H4. split; reflexivity.
Defined.

Lemma not_found_reports_witness :
  result (exec stale_index (analyze (lit "nutella"))) =
    Fulfilled
      (mkResponse
         (dquote ++ lit "nutella" ++ dquote ++
          lit " not found. Try searchProducts first.") (Some true)).
Proof.
  destruct (not_found_reports integer_truthy integer_to_string stale_index
              (lit "nutella")
              (h := fst (run stale_index 0 [] (resolve (lit "nutella"))))
              (d := bundle VNull) eq_refl eq_refl eq_refl) as [H _].
  rewrite H. reflexivity.
Defined.





Lemma analyzeProduct_fallback_missing_fields_witness :
  result (exec bare_records (analyze (lit "40084963"))) =
    Fulfilled
      (mkResponse
         (lit "# undefined" ++ nl ++ lit "Brand: undefined" ++ nl ++
          lit "Nutri-Score: undefined" ++ nl ++
          lit "Ingredients: undefined") None).
Proof.
  exact (analyzeProduct_fallback_missing_fields integer_truthy
           integer_to_string bare_records (lit "40084963")
           (h := fst (run bare_records 0 [] (resolve (lit "40084963"))))
           (d := bundle (VObj [(lit "barcode", VStr (lit "40084963"))]))
           (e := VError (lit "Error") (lit "Sampling not supported"))
           eq_refl eq_refl eq_refl eq_refl eq_refl eq_refl eq_refl eq_refl).
Defined.

Lemma suggestRecipes_rejects_on_nullish_witness :
  result (exec silent (recipes (lit "nutella"))) =
    Rejected
      (VError (lit "TypeError")
         (lit "Cannot read properties of undefined (reading 'message')")).
Proof.
  rewrite (suggestRecipes_rejects_on_nullish integer_truthy integer_to_string
             silent (lit "nutella")
             (h := fst (run silent 0 [] (resolve (lit "nutella"))))
             (d := bundle nutella) (req := VObj []) (e := VUndefined)
             eq_refl eq_refl eq_refl eq_refl eq_refl eq_refl).
  reflexivity.
Defined.

